(** * FerretDB: BSON type codes, array homogeneity and filter predicates

    A shallow embedding of [internal/handlers/common/typecode.go] and of the
    filter predicates exercised by the handler tests ([TestFind]).

    - [types]  : the dynamic value model ([any] holding the BSON kinds).
    - [common] : [typeCode], [newTypeCode], [hasSameTypeElements] and the
                 [aliasToTypeCode] table filled by [init].
    - [filter] : predicate trees, their compiler and their evaluator.

    Integers of Go's [int32] are carried by [Z]; no arithmetic is done on
    them in this file, so no wrap-around appears.  [float64] is Rocq's
    primitive binary64 float. *)

From stdpp Require Import gmap strings list fin_maps pretty.
From Stdlib Require Import ZArith Floats.PrimFloat Floats.FloatOps Floats.SpecFloat
  Floats.FloatAxioms.

Local Open Scope string_scope.
Local Open Scope Z_scope.

#[local] Set Warnings "-register-all".

(** ** Go's [math] and [fmt] primitives used by the source *)

Module math.

Definition float64 := PrimFloat.float.

(** [math.MaxFloat64], the largest finite float64. *)
Definition MaxFloat64 : float64 := 0x1.fffffffffffffp+1023%float.

(** [math.IsNaN]: [return f != f]. *)
Definition IsNaN (f : float64) : bool := negb (PrimFloat.eqb f f).

(** [math.IsInf]:
    [return sign >= 0 && f > MaxFloat64 || sign <= 0 && f < -MaxFloat64]. *)
Definition IsInf (f : float64) (sign : Z) : bool :=
  ((0 <=? sign) && PrimFloat.ltb MaxFloat64 f)
  || ((sign <=? 0) && PrimFloat.ltb f (PrimFloat.opp MaxFloat64)).

(** [math.Trunc]: the integer value of [x], rounding toward zero;
    [Trunc(±0) = ±0], [Trunc(±Inf) = ±Inf], [Trunc(NaN) = NaN].
    A finite float is [m * 2^e] with [m] below [2^53]; when [e] is
    negative the low [-e] bits of [m] are the fractional part and are
    dropped, and the quotient (below [2^53]) converts back exactly. *)
Definition Trunc (x : float64) : float64 :=
  match Prim2SF x with
  | S754_finite s m e =>
      if e <? 0 then
        let q := PrimFloat.of_uint63 (Uint63Axioms.of_Z (Z.shiftr (Z.pos m) (- e))) in
        if s then PrimFloat.opp q else q
      else x
  | _ => x
  end.

End math.

Module fmt.

(** [%d] and [%v] of an [int32]: the decimal digits, with a leading
    minus sign for a negative number. *)
Definition decimal (n : Z) : string := pretty n.

End fmt.

(** [strings.Contains(s, sub)], as a proposition. *)
Definition Contains (s sub : string) : Prop :=
  exists before after : string, s = before +:+ sub +:+ after.

(** ** The value model: package [types] *)

Module types.

(** The dynamic type [any] as far as [hasSameTypeElements] tells its
    inhabitants apart: the thirteen kinds of its type switch, and [VOther]
    for a value of any other Go type (the switch's [default]), tagged by
    the name of that type. *)
Inductive any : Type :=
| VDocument (fields : list (string * any))      (* pointer to types.Document *)
| VArray (elements : list any)                  (* pointer to types.Array *)
| VFloat64 (f : math.float64)                   (* float64 *)
| VString (s : string)                          (* string *)
| VBinary (subtype : Z) (b : list Z)            (* types.Binary *)
| VObjectID (id : list Z)                       (* types.ObjectID *)
| VBool (b : bool)                              (* bool *)
| VTime (unix_ms : Z)                           (* time.Time *)
| VNull                                         (* types.NullType *)
| VRegex (pattern options : string)             (* types.Regex *)
| VInt32 (n : Z)                                (* int32 *)
| VTimestamp (t : Z)                            (* types.Timestamp *)
| VInt64 (n : Z)                                (* int64 *)
| VOther (gotype : string).

(** A document is its fields in order, an array its elements. *)
Abbreviation Document := (list (string * any)).
Abbreviation Array := (list any).

(** [Len] of an array. *)
Definition Array_Len (a : Array) : nat := length a.

(** [Get] of an array: the element at [index], an error when [index] is
    out of bounds. *)
Definition Array_Get (a : Array) (index : nat) : option any := a !! index.

End types.

(** ** Package [must] *)

(** A Go call either returns or panics. *)
Inductive outcome (A : Type) : Type :=
| Returns (a : A)
| Panics.

Arguments Returns {A} a.
Arguments Panics {A}.

Module must.

(** [must.NotFail]: the value when the error is nil, a panic otherwise. *)
Definition NotFail {A : Type} (r : option A) : outcome A :=
  match r with
  | Some v => Returns v
  | None => Panics
  end.

End must.

(** ** Package [common]: [typecode.go] *)

Module common.
Import types.

(** Modelled from the spec: the error values of [common] ([NewErrorMsg],
    [ErrBadValue], [ErrNotImplemented]) are declared outside
    [typecode.go]; an error is its code, of the two-member taxonomy
    [BadValue] / [NotImplemented], together with its message. *)
Inductive ErrorCode : Type := ErrBadValue | ErrNotImplemented.

Record Error : Type := NewErrorMsg { err_code : ErrorCode; err_msg : string }.

(** Go's [error] interface value: [None] is [nil]. *)
Definition error := option Error.

(** [type typeCode int32] *)
Definition typeCode := Z.

Definition typeCodeDouble    : typeCode := 1.
Definition typeCodeString    : typeCode := 2.
Definition typeCodeObject    : typeCode := 3.
Definition typeCodeArray     : typeCode := 4.
Definition typeCodeBinData   : typeCode := 5.
Definition typeCodeObjectID  : typeCode := 7.
Definition typeCodeBool      : typeCode := 8.
Definition typeCodeDate      : typeCode := 9.
Definition typeCodeNull      : typeCode := 10.
Definition typeCodeRegex     : typeCode := 11.
Definition typeCodeInt       : typeCode := 16.
Definition typeCodeTimestamp : typeCode := 17.
Definition typeCodeLong      : typeCode := 18.
(* Not implemented. *)
Definition typeCodeDecimal   : typeCode := 19.
Definition typeCodeMinKey    : typeCode := -1.
Definition typeCodeMaxKey    : typeCode := 127.
(* Not actual type code. `number` matches double, int and long. *)
Definition typeCodeNumber    : typeCode := -128.

(** One [case] of a Go [switch c]: [c] equals one of the listed values. *)
Definition case_of (c : typeCode) (labels : list typeCode) : bool :=
  existsb (Z.eqb c) labels.

(** [newTypeCode] returns typeCode and error by given code. *)
Definition newTypeCode (code : Z) : typeCode * error :=
  let c : typeCode := code in
  if case_of c [typeCodeDouble; typeCodeString; typeCodeObject; typeCodeArray;
                typeCodeBinData; typeCodeObjectID; typeCodeBool; typeCodeDate;
                typeCodeNull; typeCodeRegex; typeCodeInt; typeCodeTimestamp;
                typeCodeLong; typeCodeNumber]
  then (c, None)
  else if case_of c [typeCodeDecimal; typeCodeMinKey; typeCodeMaxKey]
  then (0, Some (NewErrorMsg ErrNotImplemented
                   ("Type code " +:+ fmt.decimal code +:+ " not implemented")))
  else (0, Some (NewErrorMsg ErrBadValue
                   ("Invalid numerical type code: " +:+ fmt.decimal code))).

(** Modelled from the spec: [typeCode.String] is generated by
    [stringer -linecomment -type typeCode] into a file of its own, which
    is not available.  With [-linecomment] the name of a constant is its
    line comment in [typecode.go]; these are the alias strings the spec
    lists.  A value that is no constant prints as [typeCode(N)]. *)
Definition typeCode_String (i : typeCode) : string :=
  match i with
  | 1 => "double"
  | 2 => "string"
  | 3 => "object"
  | 4 => "array"
  | 5 => "binData"
  | 7 => "objectId"
  | 8 => "bool"
  | 9 => "date"
  | 10 => "null"
  | 11 => "regex"
  | 16 => "int"
  | 17 => "timestamp"
  | 18 => "long"
  | 19 => "decimal"
  | -1 => "minKey"
  | 127 => "maxKey"
  | -128 => "number"
  | _ => "typeCode(" +:+ fmt.decimal i +:+ ")"
  end.

(** The slice [init] ranges over. *)
Definition init_codes : list typeCode :=
  [typeCodeDouble; typeCodeString; typeCodeObject; typeCodeArray;
   typeCodeBinData; typeCodeObjectID; typeCodeBool; typeCodeDate; typeCodeNull;
   typeCodeRegex; typeCodeInt; typeCodeTimestamp; typeCodeLong; typeCodeNumber].

(** [init]: starting from the table [m], for each [i] of [codes] in
    order, [aliasToTypeCode[i.String()] = i]. *)
Definition init (m : gmap string typeCode) (codes : list typeCode)
  : gmap string typeCode :=
  foldl (fun tbl i => <[typeCode_String i := i]> tbl) m codes.

(** [aliasToTypeCode] after package initialisation: declared empty, then
    filled by [init]. *)
Definition aliasToTypeCode : gmap string typeCode := init ∅ init_codes.

(** The type switch of [hasSameTypeElements] (lines 80-114): the label
    it assigns to [cur], or [None] where the [default] case makes the
    function return false. *)
Definition classify (element : any) : option string :=
  match element with
  | VDocument _ => Some "object"
  | VArray _ => Some "array"
  | VFloat64 element =>
      if negb (PrimFloat.eqb element (math.Trunc element))
         || math.IsNaN element || math.IsInf element 0
      then Some "double"
      else Some "int"  (* float that could be converted to int should be compared as int *)
  | VString _ => Some "string"
  | VBinary _ _ => Some "binData"
  | VObjectID _ => Some "objectId"
  | VBool _ => Some "bool"
  | VTime _ => Some "date"
  | VNull => Some "null"
  | VRegex _ _ => Some "regex"
  | VInt32 _ => Some "int"
  | VTimestamp _ => Some "timestamp"
  | VInt64 _ => Some "int"
  | VOther _ => None
  end.

(** The [for] loop of [hasSameTypeElements], entered at index [i] with
    [n] iterations left ([n] is [array.Len() - i]: the array is not
    changed by the loop) and the current value of [prev]. *)
Fixpoint loop (array : Array) (n i : nat) (prev : string) : outcome bool :=
  match n with
  | O => Returns true
  | S n' =>
      match must.NotFail (Array_Get array i) with
      | Panics => Panics
      | Returns element =>
          match classify element with
          | None => Returns false
          | Some cur =>
              if String.eqb prev "" then loop array n' (S i) cur
              else if negb (String.eqb prev cur) then Returns false
              else loop array n' (S i) prev
          end
      end
  end.

(** [hasSameTypeElements] returns true if types.Array elements has the
    same type. *)
Definition hasSameTypeElements (array : Array) : outcome bool :=
  loop array (Array_Len array) 0 "".

End common.

(** ** Filter predicates: model, compiler, evaluator *)

Module filter.
Import types common.

Inductive CompareOp : Type := OpEq | OpNe | OpGt | OpGte | OpLt | OpLte.

Inductive MembershipMode : Type := ModeIn | ModeNin.

(** Modelled from the spec: the predicate tree.  The filter code of the
    handlers is not available (only its test [TestFind] is); the node
    kinds are those of the spec's data model. *)
Inductive Predicate : Type :=
| Comparison (path : string) (op : CompareOp) (operand : any)
| Membership (path : string) (mode : MembershipMode) (operands : list any)
| Pattern (path : string) (pattern options : string)
| LogicalAnd (children : list Predicate)
| LogicalOr (children : list Predicate)
| LogicalNor (children : list Predicate)
| Negation (child : Predicate).

(** *** Evaluator *)

Section Evaluator.

(** The leaf tests (equality and ordering of a field against an
    operand, membership [$in], pattern match), field-path resolution
    included.  The regular-expression engine and the comparison of
    values are outside this development: the evaluator is given them. *)
Variable matchComparison : string -> CompareOp -> any -> Document -> bool.
Variable matchIn : string -> list any -> Document -> bool.
Variable matchPattern : string -> string -> string -> Document -> bool.

(** Modelled from the spec: the predicate evaluator is not
    available.  [$and] is the conjunction of the children (empty:
    true), [$or] their disjunction (empty: false), [$nor] the negation
    of [$or], [$not] inverts its child, [$nin] is the negation of
    [$in]. *)
Fixpoint eval (p : Predicate) (d : Document) : bool :=
  match p with
  | Comparison path op operand => matchComparison path op operand d
  | Membership path ModeIn operands => matchIn path operands d
  | Membership path ModeNin operands => negb (matchIn path operands d)
  | Pattern path pattern options => matchPattern path pattern options d
  | LogicalAnd children => forallb (fun c => eval c d) children
  | LogicalOr children => existsb (fun c => eval c d) children
  | LogicalNor children => negb (existsb (fun c => eval c d) children)
  | Negation child => negb (eval child d)
  end.

End Evaluator.

(** [depth] layers of [$not] around [p]. *)
Fixpoint nested_not (depth : nat) (p : Predicate) : Predicate :=
  match depth with
  | O => p
  | S k => Negation (nested_not k p)
  end.


(** *** Compiler *)

Inductive result (A : Type) : Type :=
| Ok (a : A)
| Err (e : Error).

Arguments Ok {A} a.
Arguments Err {A} e.

Notation "x <- c ;; k" :=
  (match c with Ok x => k | Err e => Err e end)
    (at level 100, c at next level, right associativity).

Definition BadValue (msg : string) : Error := NewErrorMsg ErrBadValue msg.

(** Modelled from the spec: a key is an operator when it starts with
    [$]. *)
Definition is_operator (key : string) : bool := String.prefix "$" key.

(** Modelled from the spec: the only implemented option flag is [i]
    (code point 105). *)
Definition valid_options (options : string) : bool :=
  forallb (fun c => Ascii.eqb c (Ascii.ascii_of_nat 105)) (String.list_ascii_of_string options).

Definition lookup_key (key : string) (fields : Document) : option any :=
  snd <$> List.find (fun kv => String.eqb (fst kv) key) fields.

(** Modelled from the spec: [$regex] takes a regex value or a string; a
    sibling [$options] overrides the options carried by the regex value;
    an unknown flag or another kind of operand is a [BadValue]. *)
Definition compileRegex (path : string) (operand : any) (siblings : Document)
  : result Predicate :=
  base <- match operand with
          | VString pattern => Ok (pattern, "")
          | VRegex pattern options => Ok (pattern, options)
          | _ => Err (BadValue (path +:+ ": $regex has to be a string or a regex"))
          end ;;
  options <- match lookup_key "$options" siblings with
             | None => Ok (snd base)
             | Some (VString options) => Ok options
             | Some _ => Err (BadValue (path +:+ ": $options has to be a string"))
             end ;;
  if valid_options options then Ok (Pattern path (fst base) options)
  else Err (BadValue (path +:+ ": $options: unsupported flag in " +:+ options)).

(** Modelled from the spec: the comparison operator keywords. *)
Definition compareOp (key : string) : option CompareOp :=
  if String.eqb key "$eq" then Some OpEq
  else if String.eqb key "$ne" then Some OpNe
  else if String.eqb key "$gt" then Some OpGt
  else if String.eqb key "$gte" then Some OpGte
  else if String.eqb key "$lt" then Some OpLt
  else if String.eqb key "$lte" then Some OpLte
  else None.

(** Modelled from the spec: the membership operator keywords. *)
Definition membershipMode (key : string) : option MembershipMode :=
  if String.eqb key "$in" then Some ModeIn
  else if String.eqb key "$nin" then Some ModeNin
  else None.

(** Modelled from the spec: a nested document is an operator document
    when all its keys are operators; any other value is a literal. *)
Definition operator_document (v : any) : bool :=
  match v with
  | VDocument fields => forallb (fun kv => is_operator (fst kv)) fields
  | _ => false
  end.

(** Modelled from the spec: a literal against a field path; a regex
    value is a pattern, any other literal an implicit [$eq]. *)
Definition compileLiteral (path : string) (literal : any) : result Predicate :=
  match literal with
  | VRegex _ _ => compileRegex path literal []
  | _ => Ok (Comparison path OpEq literal)
  end.

(** Modelled from the spec: the operator document of a field path; each
    operator key is compiled against the same path, in order.  [$not]
    takes a literal or regex (negated equality or pattern) or an operator
    document (negated conjunction), to any depth.  [$options] gives no
    predicate of its own: it is read by its sibling [$regex]. *)
Fixpoint compileOperators (path : string) (v : any) {struct v}
  : result (list Predicate) :=
  match v with
  | VDocument operators =>
      (fix each (entries : list (string * any)) : result (list Predicate) :=
         match entries with
         | [] => Ok []
         | (key, operand) :: rest =>
             here <-
               match compareOp key, membershipMode key with
               | Some op, _ => Ok [Comparison path op operand]
               | None, Some mode =>
                   match operand with
                   | VArray operands => Ok [Membership path mode operands]
                   | _ => Err (BadValue (path +:+ ": " +:+ key +:+ " needs an array"))
                   end
               | None, None =>
                   if String.eqb key "$not" then
                     if operator_document operand then
                       ps <- compileOperators path operand ;;
                       Ok [Negation (LogicalAnd ps)]
                     else
                       p <- compileLiteral path operand ;;
                       Ok [Negation p]
                   else if String.eqb key "$regex" then
                     p <- compileRegex path operand operators ;;
                     Ok [p]
                   else if String.eqb key "$options" then Ok []
                   else Err (BadValue (path +:+ ": unknown operator: " +:+ key))
               end ;;
             others <- each rest ;;
             Ok (here ++ others)%list
         end) operators
  | _ => Err (BadValue (path +:+ ": operators have to be in a document"))
  end.

(** Modelled from the spec: the value of a field path; an operator
    document is the implicit AND of its operators, anything else a
    literal. *)
Definition compileField (path : string) (value : any) : result Predicate :=
  if operator_document value then
    ps <- compileOperators path value ;;
    Ok (LogicalAnd ps)
  else compileLiteral path value.

(** Modelled from the spec: the logical operators of the filter root, as
    builders over the compiled children; [$nor] compiles to the negation
    of the disjunction. *)
Definition logicalOperator (key : string)
  : option (list Predicate -> Predicate) :=
  if String.eqb key "$and" then Some LogicalAnd
  else if String.eqb key "$or" then Some LogicalOr
  else if String.eqb key "$nor" then Some (fun children => Negation (LogicalOr children))
  else None.

(** Modelled from the spec: the filter compiler.  A key of the filter
    document that starts with [$] is a logical operator over an array of
    sub-filters, each compiled recursively; any other key is a field
    path.  The entries of one filter document hold together (implicit
    AND).  The first error aborts the whole compilation. *)
Fixpoint compileFilter (v : any) {struct v} : result Predicate :=
  match v with
  | VDocument fields =>
      ps <- (fix entries (es : list (string * any)) : result (list Predicate) :=
               match es with
               | [] => Ok []
               | (key, value) :: rest =>
                   p <- (if is_operator key then
                           match logicalOperator key with
                           | None => Err (BadValue ("unknown operator: " +:+ key))
                           | Some build =>
                               match value with
                               | VArray subs =>
                                   cs <- (fix subfilters (l : list any)
                                            : result (list Predicate) :=
                                            match l with
                                            | [] => Ok []
                                            | sub :: l' =>
                                                c <- compileFilter sub ;;
                                                cs <- subfilters l' ;;
                                                Ok (c :: cs)
                                            end) subs ;;
                                   Ok (build cs)
                               | _ => Err (BadValue (key +:+ " needs an array"))
                               end
                           end
                         else compileField key value) ;;
                   ps <- entries rest ;;
                   Ok (p :: ps)
               end) fields ;;
      Ok (LogicalAnd ps)
  | _ => Err (BadValue "filter has to be a document")
  end.

(** The sub-filters of a logical operator, compiled in order. *)
Fixpoint compileAll (subs : list any) : result (list Predicate) :=
  match subs with
  | [] => Ok []
  | sub :: rest =>
      c <- compileFilter sub ;;
      cs <- compileAll rest ;;
      Ok (c :: cs)
  end.

End filter.

Import types common filter.

(** The filters and the expected document of [TestFind/NestedNot] and
    [TestFind/Nor]. *)
Definition filter_NestedNot : any :=
  VDocument [("last_name",
    VDocument [("$not", VDocument [("$not", VDocument [("$not",
      VDocument [("$eq", VString "GUINESS")])])])])].

Definition filter_Nor : any :=
  VDocument [("$nor", VArray [
    VDocument [("actor_id", VDocument [("$gt", VInt32 2)])];
    VDocument [("first_name", VString "PENELOPE")]])].

(** ** Definitions used by the statements *)

(** The codes [newTypeCode] accepts and the codes it knows but rejects. *)
Definition implemented_codes : list Z :=
  [1; 2; 3; 4; 5; 7; 8; 9; 10; 11; 16; 17; 18; -128].

Definition unsupported_codes : list Z := [19; -1; 127].

(** The table, entry by entry. *)
Definition alias_entries : list (string * Z) :=
  [("double", 1); ("string", 2); ("object", 3); ("array", 4); ("binData", 5);
   ("objectId", 7); ("bool", 8); ("date", 9); ("null", 10); ("regex", 11);
   ("int", 16); ("timestamp", 17); ("long", 18); ("number", -128)].

(** ** Spelling of the aliases *)

Module strings.

Definition is_upper (c : Ascii.ascii) : bool :=
  let n := Ascii.nat_of_ascii c in ((65 <=? n) && (n <=? 90))%nat.

Definition is_lower (c : Ascii.ascii) : bool :=
  let n := Ascii.nat_of_ascii c in ((97 <=? n) && (n <=? 122))%nat.

Definition to_lower (c : Ascii.ascii) : Ascii.ascii :=
  if is_upper c then Ascii.ascii_of_nat (Ascii.nat_of_ascii c + 32) else c.

(** [strings.ToLower] on ASCII text. *)
Fixpoint ToLower (s : string) : string :=
  match s with
  | EmptyString => EmptyString
  | String c rest => String (to_lower c) (ToLower rest)
  end.

End strings.

(** A string is lowercase when lowering it changes nothing. *)
Definition lowercase (s : string) : bool := String.eqb s (strings.ToLower s).

Definition starts_lower (s : string) : bool :=
  match s with
  | EmptyString => false
  | String c _ => strings.is_lower c
  end.

(** The alias strings the spec lists for the table, in the order of the
    codes. *)
Definition protocol_names : list string :=
  ["double"; "string"; "object"; "array"; "binData"; "objectId"; "bool";
   "date"; "null"; "regex"; "int"; "timestamp"; "long"; "number"].

(** The thirteen kinds the type switch names. *)
Definition recognized (element : any) : bool :=
  match element with
  | VOther _ => false
  | _ => true
  end.

(** The values the type switch compares as integers: an int32, an int64,
    or a float64 that passes the test of its [float64] case. *)
Definition integral (element : any) : bool :=
  match element with
  | VInt32 _ | VInt64 _ => true
  | VFloat64 f =>
      PrimFloat.eqb f (math.Trunc f)
      && negb (math.IsNaN f) && negb (math.IsInf f 0)
  | _ => false
  end.

(** The label of the first element, if there is one. *)
Definition first_label (array : Array) : option string :=
  match array with
  | [] => None
  | first :: _ => classify first
  end.

(** The loop as a recursion over the elements that are left. *)
Fixpoint scan (prev : string) (elements : list any) : bool :=
  match elements with
  | [] => true
  | element :: rest =>
      match classify element with
      | None => false
      | Some cur =>
          if String.eqb prev "" then scan cur rest
          else if negb (String.eqb prev cur) then false
          else scan prev rest
      end
  end.

(** The filter of [TestFind/Not], which expects the same response as
    [TestFind/NestedNot]. *)
Definition filter_Not : any :=
  VDocument [("last_name", VDocument [("$not", VDocument [("$eq", VString "GUINESS")])])].

(** * Properties *)

(** ** Type registry *)

Lemma case_of_In (c : typeCode) (labels : list typeCode) :
  case_of c labels = true <-> In c labels.
Proof.
  unfold case_of. rewrite existsb_exists. split.
  - intros (x & Hx & Heq). apply Z.eqb_eq in Heq. now subst.
  - intros Hin. exists c. split; [assumption | apply Z.eqb_refl].
Qed.

Lemma case_of_not_In (c : typeCode) (labels : list typeCode) :
  case_of c labels = false <-> ~ In c labels.
Proof.
  rewrite <- case_of_In. destruct (case_of c labels); split; congruence.
Qed.

Lemma append_empty_r (s : string) : s +:+ "" = s.
Proof.
  induction s as [|a s IH]; [reflexivity |].
  change (String a s +:+ "") with (String a (s +:+ "")). now rewrite IH.
Qed.

Lemma Contains_suffix (before sub : string) : Contains (before +:+ sub) sub.
Proof. exists before, "". now rewrite append_empty_r. Qed.

Lemma Contains_infix (before sub after : string) :
  Contains (before +:+ sub +:+ after) sub.
Proof. now exists before, after. Qed.

(** [newTypeCode] over the two lists of literals. *)
Lemma newTypeCode_eq (c : Z) :
  newTypeCode c =
    if case_of c implemented_codes then (c, None)
    else if case_of c unsupported_codes
    then (0, Some (NewErrorMsg ErrNotImplemented
                     ("Type code " +:+ fmt.decimal c +:+ " not implemented")))
    else (0, Some (NewErrorMsg ErrBadValue
                     ("Invalid numerical type code: " +:+ fmt.decimal c))).
Proof. reflexivity. Qed.

Lemma newTypeCode_implemented (c : Z) :
  In c implemented_codes -> newTypeCode c = (c, None).
Proof.
  intros Hin. rewrite newTypeCode_eq.
  now rewrite (proj2 (case_of_In c _) Hin).
Qed.

Lemma newTypeCode_not_implemented (c : Z) :
  ~ In c implemented_codes -> exists e, newTypeCode c = (0, Some e).
Proof.
  intros Hout. rewrite newTypeCode_eq.
  rewrite (proj2 (case_of_not_In c _) Hout).
  destruct (case_of c unsupported_codes); eauto.
Qed.

(** C1. For every int32 code [c] (here: every integer, the int32 range
    included): a code of the implemented or surrogate set
    {1, 2, 3, 4, 5, 7, 8, 9, 10, 11, 16, 17, 18, -128} is returned
    unchanged with a nil error; a code of {19, -1, 127} gives the zero
    code and a NotImplemented error whose message contains the decimal
    code; any other code gives the zero code and a BadValue error whose
    message contains the decimal code. *)
Theorem newTypeCode_cases (c : Z) :
  (In c implemented_codes -> newTypeCode c = (c, None)) /\
  (In c unsupported_codes ->
     exists msg, newTypeCode c = (0, Some (NewErrorMsg ErrNotImplemented msg))
                 /\ Contains msg (fmt.decimal c)) /\
  (~ In c (implemented_codes ++ unsupported_codes) ->
     exists msg, newTypeCode c = (0, Some (NewErrorMsg ErrBadValue msg))
                 /\ Contains msg (fmt.decimal c)).
Proof.
  split; [| split].
  - apply newTypeCode_implemented.
  - intros Hin.
    exists ("Type code " +:+ fmt.decimal c +:+ " not implemented").
    split; [| apply Contains_infix].
    rewrite newTypeCode_eq.
    assert (Hno : ~ In c implemented_codes).
    { unfold implemented_codes, unsupported_codes in *. simpl in *. lia. }
    rewrite (proj2 (case_of_not_In c _) Hno).
    now rewrite (proj2 (case_of_In c _) Hin).
  - intros Hout.
    exists ("Invalid numerical type code: " +:+ fmt.decimal c).
    split; [| apply Contains_suffix].
    rewrite newTypeCode_eq.
    rewrite (proj2 (case_of_not_In c _)).
    + rewrite (proj2 (case_of_not_In c _)); [reflexivity |].
      intros Hin. apply Hout, in_or_app. now right.
    + intros Hin. apply Hout, in_or_app. now left.
Qed.

(** The three messages of the rejected codes, and an unknown code. *)
Example newTypeCode_rejected :
  newTypeCode 19 = (0, Some (NewErrorMsg ErrNotImplemented "Type code 19 not implemented")) /\
  newTypeCode (-1) = (0, Some (NewErrorMsg ErrNotImplemented "Type code -1 not implemented")) /\
  newTypeCode 127 = (0, Some (NewErrorMsg ErrNotImplemented "Type code 127 not implemented")) /\
  newTypeCode 999 = (0, Some (NewErrorMsg ErrBadValue "Invalid numerical type code: 999")) /\
  newTypeCode 0 = (0, Some (NewErrorMsg ErrBadValue "Invalid numerical type code: 0")) /\
  newTypeCode 6 = (0, Some (NewErrorMsg ErrBadValue "Invalid numerical type code: 6")).
Proof. vm_compute. repeat split. Qed.

(** C10. [newTypeCode] is total and its result is exclusive: for every
    input it returns either the input itself, a valid (hence nonzero)
    type code, with a nil error, or the zero code with a non-nil error;
    no nonzero code ever comes with an error. *)
Theorem newTypeCode_exclusive (code : Z) :
  ((newTypeCode code = (code, None) /\ In code implemented_codes /\ code <> 0)
   \/ (exists e, newTypeCode code = (0, Some e)))
  /\ (forall c e, newTypeCode code = (c, Some e) -> c = 0).
Proof.
  assert (Hcases :
    (newTypeCode code = (code, None) /\ In code implemented_codes /\ code <> 0)
    \/ (exists e, newTypeCode code = (0, Some e))).
  { destruct (in_dec Z.eq_dec code implemented_codes) as [Hin | Hout].
    - left. split; [now apply newTypeCode_implemented | split; [exact Hin |]].
      simpl in Hin. lia.
    - right. now apply newTypeCode_not_implemented. }
  split; [exact Hcases |].
  intros c e Heq. destruct Hcases as [(Hok & _) | (e' & Herr)]; congruence.
Qed.


(** ** The alias table built by [init] *)

Section Init.

(** A key that no code of [codes] prints as keeps its entry. *)
Lemma init_lookup_other (codes : list typeCode) :
  forall (m : gmap string typeCode) (alias : string),
    ~ In alias (map typeCode_String codes) ->
    init m codes !! alias = m !! alias.
Proof.
  induction codes as [|i rest IH]; intros m alias Hnot; [reflexivity |].
  change (init m (i :: rest)) with (init (<[typeCode_String i := i]> m) rest).
  rewrite IH.
  - apply lookup_insert_ne. intros Heq. apply Hnot. now left.
  - intros Hin. apply Hnot. now right.
Qed.

(** When the codes print as pairwise different names, each code is found
    under its own name. *)
Lemma init_lookup_code (codes : list typeCode) :
  forall (m : gmap string typeCode) (c : typeCode),
    List.NoDup (map typeCode_String codes) ->
    In c codes ->
    init m codes !! typeCode_String c = Some c.
Proof.
  induction codes as [|i rest IH]; intros m c Hnodup Hin; [destruct Hin |].
  change (init m (i :: rest)) with (init (<[typeCode_String i := i]> m) rest).
  inversion Hnodup as [|x l Hfresh Hrest]; subst.
  destruct (Z.eq_dec i c) as [-> | Hne].
  - rewrite init_lookup_other by exact Hfresh. apply lookup_insert_eq.
  - destruct Hin as [Heq | Hin]; [contradiction |]. now apply IH.
Qed.

(** Every entry of the table was there before or is a code of [codes]
    under its own name. *)
Lemma init_lookup_inv (codes : list typeCode) :
  forall (m : gmap string typeCode) (alias : string) (c : typeCode),
    init m codes !! alias = Some c ->
    m !! alias = Some c \/ (In c codes /\ typeCode_String c = alias).
Proof.
  induction codes as [|i rest IH]; intros m alias c Hlook; [now left |].
  change (init m (i :: rest)) with (init (<[typeCode_String i := i]> m) rest) in Hlook.
  destruct (IH _ _ _ Hlook) as [Hm | (Hin & Heq)].
  - destruct (decide (typeCode_String i = alias)) as [Heq | Hne].
    + subst alias. rewrite lookup_insert_eq in Hm. injection Hm as ->.
      right. split; [now left | reflexivity].
    + rewrite lookup_insert_ne in Hm by exact Hne. now left.
  - right. split; [now right | exact Heq].
Qed.

End Init.

Lemma init_codes_names_NoDup : List.NoDup (map typeCode_String init_codes).
Proof.
  apply NoDup_ListNoDup. apply (bool_decide_unpack _). vm_compute. exact I.
Qed.

Lemma init_codes_implemented : init_codes = implemented_codes.
Proof. reflexivity. Qed.

Lemma newTypeCode_valid_iff (c : Z) :
  newTypeCode c = (c, None) <-> In c implemented_codes.
Proof.
  split; [| apply newTypeCode_implemented].
  intros Hok. destruct (in_dec Z.eq_dec c implemented_codes) as [Hin | Hout];
    [exact Hin |].
  destruct (newTypeCode_not_implemented c Hout) as (e & He). congruence.
Qed.

(** C4. For every valid type code [c] (one [newTypeCode] accepts),
    looking up [c.String()] in [aliasToTypeCode] gives [c] back; every
    entry of the table maps the name of a valid code to that code, so the
    table is the inverse of the code-to-alias mapping; and that mapping is
    injective, hence bijective between the valid codes and the keys. *)
Theorem alias_roundtrip :
  (forall c : Z, newTypeCode c = (c, None) ->
     aliasToTypeCode !! typeCode_String c = Some c) /\
  (forall (alias : string) (c : typeCode), aliasToTypeCode !! alias = Some c ->
     newTypeCode c = (c, None) /\ typeCode_String c = alias) /\
  (forall c1 c2 : Z, newTypeCode c1 = (c1, None) -> newTypeCode c2 = (c2, None) ->
     typeCode_String c1 = typeCode_String c2 -> c1 = c2).
Proof.
  assert (Hfwd : forall c : Z, newTypeCode c = (c, None) ->
                   aliasToTypeCode !! typeCode_String c = Some c).
  { intros c Hok. apply newTypeCode_valid_iff in Hok.
    apply init_lookup_code; [apply init_codes_names_NoDup | exact Hok]. }
  split; [exact Hfwd | split].
  - intros alias c Hlook.
    destruct (init_lookup_inv _ _ _ _ Hlook) as [Hempty | (Hin & Heq)].
    + rewrite lookup_empty in Hempty. discriminate.
    + split; [| exact Heq]. now apply newTypeCode_valid_iff.
  - intros c1 c2 H1 H2 Heq.
    apply Hfwd in H1. apply Hfwd in H2. rewrite Heq in H1. congruence.
Qed.

Lemma aliasToTypeCode_lookup (alias : string) (c : typeCode) :
  aliasToTypeCode !! alias = Some c <-> In (alias, c) alias_entries.
Proof.
  split.
  - intros Hlook.
    destruct (init_lookup_inv _ _ _ _ Hlook) as [Hempty | (Hin & Heq)].
    + rewrite lookup_empty in Hempty. discriminate.
    + subst alias. simpl in Hin.
      repeat (destruct Hin as [<- | Hin]; [simpl; tauto |]). destruct Hin.
  - intros Hin. simpl in Hin.
    repeat (destruct Hin as [Heq | Hin];
            [injection Heq as <- <-; vm_compute; reflexivity |]).
    destruct Hin.
Qed.

(** C9. After [init] the table [aliasToTypeCode] has exactly fourteen
    entries, one for each implemented or surrogate code, under the names
    double, string, object, array, binData, objectId, bool, date, null,
    regex, int, timestamp, long, number; the codes decimal (19), minKey
    (-1) and maxKey (127) have no entry: looking up their aliases fails. *)
Theorem aliasToTypeCode_entries :
  size aliasToTypeCode = 14%nat /\
  (forall (alias : string) (c : typeCode),
     aliasToTypeCode !! alias = Some c <-> In (alias, c) alias_entries) /\
  typeCode_String typeCodeDecimal = "decimal" /\
  typeCode_String typeCodeMinKey = "minKey" /\
  typeCode_String typeCodeMaxKey = "maxKey" /\
  aliasToTypeCode !! typeCode_String typeCodeDecimal = None /\
  aliasToTypeCode !! typeCode_String typeCodeMinKey = None /\
  aliasToTypeCode !! typeCode_String typeCodeMaxKey = None /\
  (forall alias : string, ~ (aliasToTypeCode !! alias = Some typeCodeDecimal
                             \/ aliasToTypeCode !! alias = Some typeCodeMinKey
                             \/ aliasToTypeCode !! alias = Some typeCodeMaxKey)).
Proof.
  split; [vm_compute; reflexivity |].
  split; [exact aliasToTypeCode_lookup |].
  repeat (split; [vm_compute; reflexivity |]).
  intros alias [H | [H | H]]; apply aliasToTypeCode_lookup in H; simpl in H;
    repeat (destruct H as [H | H]; [discriminate H |]); destruct H.
Qed.

(** C7, as stated, fails: the alias of code 5 is a key of the table and is
    not lowercase. *)
Lemma alias_not_all_lowercase :
  ~ (forall (alias : string) (c : typeCode),
       aliasToTypeCode !! alias = Some c ->
       alias = typeCode_String c /\ lowercase alias = true).
Proof.
  intros Hall.
  destruct (Hall "binData" typeCodeBinData) as [_ Hlow];
    [vm_compute; reflexivity |].
  vm_compute in Hlow. discriminate Hlow.
Qed.

(** C7, amended. Every key of the alias table is the [String()] of its
    code and is that code's protocol name as the spec lists them (double,
    string, object, array, binData, objectId, bool, date, null, regex,
    int, timestamp, long, number); each name starts with a lowercase
    letter, and all are lowercase throughout except binData and objectId,
    which are camel case. *)
Theorem alias_protocol_names :
  map typeCode_String init_codes = protocol_names /\
  (forall (alias : string) (c : typeCode),
     aliasToTypeCode !! alias = Some c ->
     alias = typeCode_String c /\ In alias protocol_names) /\
  (forall alias : string, In alias protocol_names ->
     exists c : typeCode, aliasToTypeCode !! alias = Some c) /\
  forallb starts_lower protocol_names = true /\
  List.filter (fun alias => negb (lowercase alias)) protocol_names
    = ["binData"; "objectId"].
Proof.
  split; [reflexivity |].
  split; [| split; [| split; vm_compute; reflexivity]].
  - intros alias c Hlook.
    destruct (init_lookup_inv _ _ _ _ Hlook) as [Hempty | (Hin & Heq)].
    + rewrite lookup_empty in Hempty. discriminate.
    + split; [now symmetry |]. subst alias.
      change protocol_names with (map typeCode_String init_codes).
      now apply in_map.
  - intros alias Hin. simpl in Hin.
    repeat (destruct Hin as [<- | Hin];
            [eexists; vm_compute; reflexivity |]).
    destruct Hin.
Qed.

(** ** Classification and homogeneity *)

Lemma classify_float_cases (f : math.float64) :
  classify (VFloat64 f) = Some "int" \/ classify (VFloat64 f) = Some "double".
Proof.
  unfold classify.
  destruct (negb (PrimFloat.eqb f (math.Trunc f)) || math.IsNaN f || math.IsInf f 0);
    [now right | now left].
Qed.

Lemma classify_recognized (element : any) :
  classify element = None <-> recognized element = false.
Proof.
  destruct element; simpl; try (split; discriminate); try tauto.
  destruct (classify_float_cases f) as [H | H]; unfold classify in H; rewrite H;
    split; discriminate.
Qed.

Lemma classify_not_empty (element : any) (label : string) :
  classify element = Some label -> label <> "".
Proof.
  destruct element; simpl; intros H; try (injection H as <-; discriminate);
    try discriminate H.
  destruct (negb _ || _ || _) in H; injection H as <-; discriminate.
Qed.

(** The indexed loop visits exactly the elements from index [i] on, and
    [must.NotFail] never panics in it. *)
Lemma loop_scan (array : Array) :
  forall (n i : nat) (prev : string),
    n = (length array - i)%nat ->
    loop array n i prev = Returns (scan prev (drop i array)).
Proof.
  induction n as [|n IH]; intros i prev Hn.
  - rewrite drop_ge by lia. reflexivity.
  - assert (Hlt : (i < length array)%nat) by lia.
    destruct (lookup_lt_is_Some_2 array i Hlt) as [element Helem].
    rewrite (drop_S _ _ _ Helem). cbn [loop scan].
    unfold Array_Get. rewrite Helem. cbn [must.NotFail].
    destruct (classify element) as [cur |]; [| reflexivity].
    destruct (String.eqb prev ""); [apply IH; lia |].
    destruct (negb (String.eqb prev cur)); [reflexivity | apply IH; lia].
Qed.

Lemma hasSameTypeElements_scan (array : Array) :
  hasSameTypeElements array = Returns (scan "" array).
Proof.
  unfold hasSameTypeElements, Array_Len.
  rewrite (loop_scan array (length array) 0 "") by lia.
  now rewrite drop_0.
Qed.

Lemma scan_prev (prev : string) (elements : list any) :
  prev <> "" ->
  scan prev elements = true <->
  forall e, In e elements -> classify e = Some prev.
Proof.
  intros Hprev. induction elements as [|element rest IH]; simpl.
  - split; [intros _ e [] | reflexivity].
  - apply String.eqb_neq in Hprev. 
    destruct (classify element) as [cur |] eqn:Hcur.
    + rewrite Hprev. destruct (String.eqb prev cur) eqn:Heq; simpl.
      * apply String.eqb_eq in Heq. subst cur. rewrite IH. split.
        -- intros Hall e [<- | Hin]; [exact Hcur | now apply Hall].
        -- intros Hall e Hin. apply Hall. now right.
      * apply String.eqb_neq in Heq. split; [discriminate |].
        intros Hall. specialize (Hall element (or_introl eq_refl)). congruence.
    + split; [discriminate |].
      intros Hall. specialize (Hall element (or_introl eq_refl)). congruence.
Qed.

Lemma scan_start (elements : list any) :
  scan "" elements = true <->
  forall e, In e elements ->
    recognized e = true /\ classify e = first_label elements.
Proof.
  destruct elements as [|first rest]; simpl.
  - split; [intros _ e [] | reflexivity].
  - destruct (classify first) as [cur |] eqn:Hcur.
    + rewrite (scan_prev cur rest (classify_not_empty _ _ Hcur)). split.
      * intros Hall e [<- | Hin].
        -- split; [| exact Hcur].
           apply not_false_iff_true. rewrite <- classify_recognized. congruence.
        -- rewrite (Hall e Hin). split; [| reflexivity].
           apply not_false_iff_true. rewrite <- classify_recognized.
           rewrite (Hall e Hin). discriminate.
      * intros Hall e Hin. apply Hall. now right.
    + split; [discriminate |].
      intros Hall. destruct (Hall first (or_introl eq_refl)) as [Hrec _].
      apply classify_recognized in Hcur. congruence.
Qed.

(** [math.Trunc] on fractional, integral, large, tiny, signed and special
    values. *)
Example Trunc_values :
  math.Trunc 5.5%float = 5%float /\
  math.Trunc 5%float = 5%float /\
  math.Trunc (-0.5)%float = (-0)%float /\
  math.Trunc (-7.75)%float = (-7)%float /\
  math.Trunc 0.25%float = 0%float /\
  math.Trunc 0x1p-1074%float = 0%float /\
  math.Trunc 4503599627370495.5%float = 4503599627370495%float /\
  math.Trunc 0x1p+60%float = 0x1p+60%float /\
  math.Trunc math.MaxFloat64 = math.MaxFloat64 /\
  math.Trunc 0%float = 0%float /\
  math.Trunc (-0)%float = (-0)%float /\
  math.Trunc infinity = infinity /\
  math.Trunc neg_infinity = neg_infinity /\
  math.Trunc nan = nan.
Proof. vm_compute. repeat split. Qed.

(** *** NaN and the infinities, as [math.IsNaN] and [math.IsInf] see them *)

Lemma digits2_pos_bound (m : positive) :
  Z.pos m < 2 ^ Z.pos (digits2_pos m).
Proof.
  induction m as [m IH | m IH |]; cbn [digits2_pos].
  - rewrite Pos2Z.inj_succ, Z.pow_succ_r by lia. lia.
  - rewrite Pos2Z.inj_succ, Z.pow_succ_r by lia. lia.
  - reflexivity.
Qed.

Lemma SFcompare_refl (x : spec_float) :
  x <> S754_nan -> SFcompare x x = Some Eq.
Proof.
  destruct x as [s | s | | s m e]; cbn [SFcompare]; intros H; try congruence.
  - now destruct s.
  - rewrite Z.compare_refl.
    assert (Hm : Pos.compare_cont Eq m m = Eq) by apply Pos.compare_refl.
    rewrite Hm. now destruct s.
Qed.

(** [f != f] holds of NaN only. *)
Lemma IsNaN_spec (f : math.float64) : math.IsNaN f = true <-> f = nan.
Proof.
  unfold math.IsNaN. rewrite eqb_spec. unfold SFeqb. split.
  - intros H. destruct (Prim2SF f) eqn:Hf.
    1,2,4: rewrite SFcompare_refl in H by discriminate; discriminate H.
    rewrite <- (SF2Prim_Prim2SF f), Hf. reflexivity.
  - intros ->. reflexivity.
Qed.

(** A finite binary64 has exponent at most 971, and at 971 a mantissa
    below [2^53]. *)
Lemma finite_below_max (s : bool) (m : positive) (e : Z) :
  valid_binary (S754_finite s m e) = true ->
  e < 971 \/ (e = 971 /\ Z.pos m < 2 ^ 53).
Proof.
  unfold valid_binary, bounded, canonical_mantissa, fexp, SpecFloat.emin.
  unfold prec, emax.
  intros H. apply andb_prop in H. destruct H as [Hc Hb].
  apply Z.eqb_eq in Hc. apply Z.leb_le in Hb.
  destruct (Z.eq_dec e 971) as [-> | Hne]; [right | left; lia].
  split; [reflexivity |].
  assert (Hd : Z.pos (digits2_pos m) <= 53) by lia.
  pose proof (digits2_pos_bound m) as Hm.
  eapply Z.lt_le_trans; [exact Hm |].
  apply Z.pow_le_mono_r; lia.
Qed.

Lemma Prim2SF_MaxFloat64 :
  Prim2SF math.MaxFloat64 = S754_finite false 9007199254740991 971.
Proof. vm_compute. reflexivity. Qed.

Lemma Prim2SF_opp_MaxFloat64 :
  Prim2SF (- math.MaxFloat64) = S754_finite true 9007199254740991 971.
Proof. vm_compute. reflexivity. Qed.

Lemma pow53 : 2 ^ 53 = Z.succ 9007199254740991.
Proof. vm_compute. reflexivity. Qed.

Lemma compare_cont_below (q m : positive) :
  Z.pos m < Z.succ (Z.pos q) ->
  Pos.compare_cont Eq q m <> Lt /\ Pos.compare_cont Eq m q <> Gt.
Proof.
  intros H. fold (Pos.compare q m). fold (Pos.compare m q).
  rewrite Pos.compare_lt_iff, Pos.compare_gt_iff. lia.
Qed.

(** No finite float of exponent and mantissa bounded by [q * 2^E] lies
    beyond [q * 2^E] or below its opposite. *)
Lemma finite_not_beyond (q : positive) (E : Z) (s : bool) (m : positive) (e : Z) :
  e < E \/ (e = E /\ Z.pos m < Z.succ (Z.pos q)) ->
  SFltb (S754_finite false q E) (S754_finite s m e) = false /\
  SFltb (S754_finite s m e) (S754_finite true q E) = false.
Proof.
  intros [Hlt | (-> & Hm)]; unfold SFltb, SFcompare.
  - rewrite (proj2 (Z.compare_lt_iff e E) Hlt), (proj2 (Z.compare_gt_iff E e) Hlt).
    now destruct s.
  - rewrite Z.compare_refl. destruct (compare_cont_below q m Hm) as [H1 H2].
    destruct s; split; try reflexivity.
    + destruct (Pos.compare_cont Eq m q); cbn [CompOpp]; congruence.
    + destruct (Pos.compare_cont Eq q m); congruence.
Qed.

(** With sign 0, [f > MaxFloat64 || f < -MaxFloat64] holds of the two
    infinities only. *)
Lemma IsInf_spec (f : math.float64) :
  math.IsInf f 0 = true <-> f = infinity \/ f = neg_infinity.
Proof.
  unfold math.IsInf. change (0 <=? 0) with true. cbn [andb].
  rewrite !ltb_spec, Prim2SF_MaxFloat64, Prim2SF_opp_MaxFloat64.
  pose proof (Prim2SF_valid f) as Hv.
  split.
  - intros H. destruct (Prim2SF f) as [s | s | | s m e] eqn:Hf.
    + destruct s; discriminate H.
    + rewrite <- (SF2Prim_Prim2SF f), Hf. destruct s; [now right | now left].
    + discriminate H.
    + apply finite_below_max in Hv. rewrite pow53 in Hv.
      destruct (finite_not_beyond _ 971 s m e Hv) as [H1 H2].
      rewrite H1, H2 in H. discriminate H.
  - intros [-> | ->]; reflexivity.
Qed.

Lemma classify_float_int (f : math.float64) :
  classify (VFloat64 f) = Some "int" <->
  PrimFloat.eqb f (math.Trunc f) = true
  /\ math.IsNaN f = false /\ math.IsInf f 0 = false.
Proof.
  unfold classify.
  destruct (PrimFloat.eqb f (math.Trunc f)), (math.IsNaN f), (math.IsInf f 0);
    simpl; split; try discriminate; try tauto;
    intros (H1 & H2 & H3); discriminate.
Qed.

(** C2. A float64 [f] gets the label "int" if and only if
    [f == math.Trunc(f)] and [f] is neither NaN nor positive or negative
    infinity (as decided by [math.IsNaN] and [math.IsInf(f, 0)]), and the
    label "double" otherwise; int32 and int64 values always get "int",
    and so do the integral floats, for instance 5.0, while 5.5, NaN and
    the two infinities get "double". *)
Theorem classify_numeric (f : math.float64) :
  (classify (VFloat64 f) = Some "int" <->
     PrimFloat.eqb f (math.Trunc f) = true
     /\ f <> nan /\ f <> infinity /\ f <> neg_infinity) /\
  (classify (VFloat64 f) = Some "int" <->
     PrimFloat.eqb f (math.Trunc f) = true
     /\ math.IsNaN f = false /\ math.IsInf f 0 = false) /\
  (classify (VFloat64 f) <> Some "int" <-> classify (VFloat64 f) = Some "double") /\
  (forall n : Z, classify (VInt32 n) = Some "int") /\
  (forall n : Z, classify (VInt64 n) = Some "int") /\
  classify (VInt32 5) = Some "int" /\
  classify (VInt64 5) = Some "int" /\
  classify (VFloat64 5%float) = Some "int" /\
  classify (VFloat64 5.5%float) = Some "double" /\
  classify (VFloat64 nan) = Some "double" /\
  classify (VFloat64 infinity) = Some "double" /\
  classify (VFloat64 neg_infinity) = Some "double".
Proof.
  split; [| split; [apply classify_float_int | split]].
  - rewrite classify_float_int.
    rewrite <- (not_true_iff_false (math.IsNaN f)), IsNaN_spec.
    rewrite <- (not_true_iff_false (math.IsInf f 0)), IsInf_spec.
    tauto.
  - destruct (classify_float_cases f) as [H | H]; rewrite H;
      split; congruence.
  - repeat split; vm_compute; reflexivity.
Qed.

(** The verdict over arbitrary Go values: [hasSameTypeElements] always
    returns; it returns true if and only if each element is of a
    recognized kind and has the label of the first element. *)
Theorem hasSameTypeElements_homogeneous (array : Array) :
  (exists b : bool, hasSameTypeElements array = Returns b) /\
  hasSameTypeElements [] = Returns true /\
  (forall x : any, recognized x = true -> hasSameTypeElements [x] = Returns true) /\
  (hasSameTypeElements array = Returns true <->
     forall e, In e array ->
       recognized e = true /\ classify e = first_label array) /\
  ((forall e, In e array -> recognized e = true) ->
     (hasSameTypeElements array = Returns true <->
        forall e, In e array -> classify e = first_label array)) /\
  hasSameTypeElements [VInt32 1; VInt64 2; VFloat64 3%float] = Returns true /\
  hasSameTypeElements [VInt32 1; VFloat64 1.5%float] = Returns false.
Proof.
  assert (Hiff : hasSameTypeElements array = Returns true <->
                 forall e, In e array ->
                   recognized e = true /\ classify e = first_label array).
  { rewrite hasSameTypeElements_scan, <- scan_start.
    split; [intros H; now injection H | intros ->; reflexivity]. }
  split; [rewrite hasSameTypeElements_scan; eauto |].
  split; [reflexivity |].
  split.
  { intros x Hx. rewrite hasSameTypeElements_scan. f_equal.
    apply scan_start. intros e [<- | []]. split; [exact Hx | reflexivity]. }
  split; [exact Hiff |].
  split; [| split; vm_compute; reflexivity].
  intros Hrec. rewrite Hiff. split.
  - intros Hall e Hin. now apply Hall.
  - intros Hall e Hin. split; [now apply Hrec | now apply Hall].
Qed.

(** C3. Over the values of the document model (the thirteen recognized
    kinds), [hasSameTypeElements] returns true for every empty sequence
    and for every singleton sequence; for every sequence of two or more
    elements it returns true if and only if every element's canonical
    label equals the first element's canonical label.  In particular
    [int32(1), int64(2), float64(3.0)] is homogeneous, and
    [int32(1), float64(1.5)] is not. *)
Theorem hasSameTypeElements_recognized (array : Array) :
  (forall e, In e array -> recognized e = true) ->
  (array = [] -> hasSameTypeElements array = Returns true) /\
  (forall x : any, array = [x] -> hasSameTypeElements array = Returns true) /\
  ((2 <= length array)%nat ->
     (hasSameTypeElements array = Returns true <->
        forall e, In e array -> classify e = first_label array)) /\
  (hasSameTypeElements array = Returns true <->
     forall e, In e array -> classify e = first_label array) /\
  (hasSameTypeElements array = Returns true
   \/ hasSameTypeElements array = Returns false) /\
  hasSameTypeElements [VInt32 1; VInt64 2; VFloat64 3%float] = Returns true /\
  hasSameTypeElements [VInt32 1; VFloat64 1.5%float] = Returns false.
Proof.
  intros Hrec.
  assert (Hiff : hasSameTypeElements array = Returns true <->
                 forall e, In e array -> classify e = first_label array).
  { rewrite hasSameTypeElements_scan. split.
    - intros H e Hin. injection H as H.
      now apply (proj1 (scan_start array) H e Hin).
    - intros Hall. f_equal. apply scan_start. intros e Hin.
      split; [now apply Hrec | now apply Hall]. }
  split; [| split; [| split; [| split; [exact Hiff | split]]]].
  - intros ->. reflexivity.
  - intros x ->. apply Hiff. intros e [<- | []]. reflexivity.
  - intros _. exact Hiff.
  - rewrite hasSameTypeElements_scan. destruct (scan "" array); auto.
  - split; vm_compute; reflexivity.
Qed.

Lemma hasSameTypeElements_recognized_witness :
  ([VInt32 1; VInt64 2; VFloat64 3%float] = [] ->
     hasSameTypeElements [VInt32 1; VInt64 2; VFloat64 3%float] = Returns true) /\
  (forall x : any, [VInt32 1; VInt64 2; VFloat64 3%float] = [x] ->
     hasSameTypeElements [VInt32 1; VInt64 2; VFloat64 3%float] = Returns true) /\
  ((2 <= length [VInt32 1; VInt64 2; VFloat64 3%float])%nat ->
     (hasSameTypeElements [VInt32 1; VInt64 2; VFloat64 3%float] = Returns true <->
        forall e, In e [VInt32 1; VInt64 2; VFloat64 3%float] ->
          classify e = first_label [VInt32 1; VInt64 2; VFloat64 3%float])) /\
  (hasSameTypeElements [VInt32 1; VInt64 2; VFloat64 3%float] = Returns true <->
     forall e, In e [VInt32 1; VInt64 2; VFloat64 3%float] ->
       classify e = first_label [VInt32 1; VInt64 2; VFloat64 3%float]) /\
  (hasSameTypeElements [VInt32 1; VInt64 2; VFloat64 3%float] = Returns true
   \/ hasSameTypeElements [VInt32 1; VInt64 2; VFloat64 3%float] = Returns false) /\
  hasSameTypeElements [VInt32 1; VInt64 2; VFloat64 3%float] = Returns true /\
  hasSameTypeElements [VInt32 1; VFloat64 1.5%float] = Returns false.
Proof.
  apply (hasSameTypeElements_recognized [VInt32 1; VInt64 2; VFloat64 3%float]).
  intros e [<- | [<- | [<- | []]]]; reflexivity.
Defined.

(** C8. Whenever some element of the array is of a kind outside the
    thirteen recognized ones, [hasSameTypeElements] returns false (it does
    not panic), also when that element is the only one. *)
Theorem hasSameTypeElements_unrecognized (array : Array) (e : any) :
  In e array -> recognized e = false ->
  hasSameTypeElements array = Returns false.
Proof.
  intros Hin Hrec. rewrite hasSameTypeElements_scan. f_equal.
  apply not_true_is_false. intros Htrue.
  destruct (proj1 (scan_start array) Htrue e Hin) as [Hyes _]. congruence.
Qed.

Lemma hasSameTypeElements_unrecognized_witness :
  hasSameTypeElements [VOther "int"] = Returns false /\
  hasSameTypeElements [VInt32 1; VString "a"; VOther "uint8"] = Returns false.
Proof.
  split.
  - apply (hasSameTypeElements_unrecognized [VOther "int"] (VOther "int"));
      [simpl; auto | reflexivity].
  - apply (hasSameTypeElements_unrecognized
             [VInt32 1; VString "a"; VOther "uint8"] (VOther "uint8"));
      [simpl; auto | reflexivity].
Defined.

(** ** Filter predicates *)

(** A filter document whose only key is [$nor]. *)
Lemma compileFilter_nor (subs : list any) :
  compileFilter (VDocument [("$nor", VArray subs)]) =
    (cs <- compileAll subs ;; Ok (LogicalAnd [Negation (LogicalOr cs)])).
Proof.
  induction subs as [|sub rest IH]; [reflexivity |].
  simpl in *. destruct (compileFilter sub) as [c | e]; [| reflexivity].
  destruct (compileAll rest) as [cs | e];
    match type of IH with
    | match match match ?X with _ => _ end with _ => _ end with _ => _ end = _ =>
        destruct X; simpl in *; congruence
    end.
Qed.

Section Evaluation.

Variable matchComparison : string -> CompareOp -> any -> Document -> bool.
Variable matchIn : string -> list any -> Document -> bool.
Variable matchPattern : string -> string -> string -> Document -> bool.

Local Abbreviation ev := (eval matchComparison matchIn matchPattern).

Lemma eval_nested_not (depth : nat) (P : Predicate) (D : Document) :
ev (nested_not depth P) D = if Nat.even depth then ev P D else negb (ev P D).
Proof.
induction depth as [|k IH]; [reflexivity |].
change (nested_not (S k) P) with (Negation (nested_not k P)).
cbn [eval]. rewrite IH, Nat.even_succ, <- Nat.negb_even.
destruct (Nat.even k); simpl; [reflexivity | apply negb_involutive].
Qed.

(** C5. For every predicate [P] and document [D], whatever the leaf
  tests are: [Not(Not(P))] evaluates as [P], [Not(Not(Not(P)))] as
  [Not(P)], and [depth] nested negations evaluate as [P] when [depth] is
  even and as its inversion when [depth] is odd. *)
Theorem negation_parity (P : Predicate) (D : Document) :
ev (Negation (Negation P)) D = ev P D /\
ev (Negation (Negation (Negation P))) D = ev (Negation P) D /\
(forall depth : nat,
   ev (nested_not depth P) D = if Nat.even depth then ev P D else negb (ev P D)).
Proof.
split; [| split].
- cbn [eval]. apply negb_involutive.
- cbn [eval]. now rewrite negb_involutive.
- intros depth. apply eval_nested_not.
Qed.

(** The filters of [TestFind/NestedNot] and [TestFind/Not] compile, and
  their predicates agree on every document. *)
Lemma NestedNot_agrees_with_Not (D : Document) :
exists P3 P1 : Predicate,
  compileFilter filter_NestedNot = Ok P3 /\
  compileFilter filter_Not = Ok P1 /\
  ev P3 D = ev P1 D.
Proof.
eexists. eexists. split; [vm_compute; reflexivity |].
split; [vm_compute; reflexivity |].
cbn [eval forallb]. rewrite !andb_true_r. now rewrite negb_involutive.
Qed.

(** C6. For every list of children and every document, whatever the leaf
  tests are: [$nor] evaluates as the negation of [$or] over the same
  children; over [A, B] this is [!(eval A || eval B)]; and the compiler
  turns the key [$nor] over sub-filters that compile to [children] into
  [Negation(LogicalOr(children))], the single entry of the filter
  document's conjunction. *)
Theorem nor_is_negated_or (children : list Predicate) (D : Document) :
ev (LogicalNor children) D = ev (Negation (LogicalOr children)) D /\
ev (LogicalNor children) D = negb (ev (LogicalOr children) D) /\
(forall A B : Predicate,
   ev (LogicalNor [A; B]) D = negb (ev A D || ev B D) /\
   ev (Negation (LogicalOr [A; B])) D = negb (ev A D || ev B D)) /\
logicalOperator "$nor" = Some (fun cs => Negation (LogicalOr cs)) /\
(forall subs : list any, compileAll subs = Ok children ->
   compileFilter (VDocument [("$nor", VArray subs)])
     = Ok (LogicalAnd [Negation (LogicalOr children)])
   /\ ev (LogicalAnd [Negation (LogicalOr children)]) D
      = ev (LogicalNor children) D).
Proof.
split; [reflexivity |]. split; [reflexivity |].
split; [intros A B; cbn [eval existsb]; now rewrite orb_false_r |].
split; [reflexivity |].
intros subs Hsubs. split.
- rewrite compileFilter_nor, Hsubs. reflexivity.
- cbn [eval forallb]. apply andb_true_r.
Qed.

End Evaluation.

(** The filter of [TestFind/Nor] compiles to the negated disjunction of
    its two sub-filters. *)
Example compile_filter_Nor :
  compileFilter filter_Nor =
    Ok (LogicalAnd [Negation (LogicalOr
          [LogicalAnd [LogicalAnd [Comparison "actor_id" OpGt (VInt32 2)]];
           LogicalAnd [Comparison "first_name" OpEq (VString "PENELOPE")]])]).
Proof. vm_compute. reflexivity. Qed.

(** * Further properties of [typecode.go] *)

(** ** [hasSameTypeElements] *)

(** An array is homogeneous exactly when one label fits all its elements. *)
Lemma homogeneous_iff_label (array : Array) :
  hasSameTypeElements array = Returns true <->
  exists label : string, forall e, In e array -> classify e = Some label.
Proof.
  rewrite hasSameTypeElements_scan. split.
  - intros H. injection H as H. rewrite scan_start in H.
    destruct array as [|first rest]; [exists ""; intros e [] |].
    destruct (classify first) as [label |] eqn:Hfirst.
    + exists label. intros e Hin. destruct (H e Hin) as [_ He].
      simpl in He. congruence.
    + destruct (H first (or_introl eq_refl)) as [Hrec _].
      apply classify_recognized in Hfirst. congruence.
  - intros (label & Hall). f_equal. apply scan_start.
    intros e Hin. split.
    + apply not_false_iff_true. rewrite <- classify_recognized.
      rewrite (Hall e Hin). discriminate.
    + destruct array as [|first rest]; [destruct Hin |].
      simpl. rewrite (Hall e Hin). symmetry. apply Hall. now left.
Qed.

(** Two verdicts agree as soon as they are true together. *)
Lemma hasSameTypeElements_agree (a b : Array) :
  (hasSameTypeElements a = Returns true <-> hasSameTypeElements b = Returns true) ->
  hasSameTypeElements a = hasSameTypeElements b.
Proof.
  rewrite !hasSameTypeElements_scan. intros [Hab Hba].
  destruct (scan "" a), (scan "" b); try reflexivity.
  - specialize (Hab eq_refl). discriminate Hab.
  - specialize (Hba eq_refl). discriminate Hba.
Qed.

(** X1. The verdict only depends on the labels of the elements, in order:
    two arrays whose elements have the same labels position by position
    get the same verdict, whatever the values (and the contents of nested
    arrays and documents) are. *)
Theorem hasSameTypeElements_labels_only (a b : Array) :
  map classify a = map classify b ->
  hasSameTypeElements a = hasSameTypeElements b.
Proof.
  intros Hmap. rewrite !hasSameTypeElements_scan. f_equal.
  generalize "" as prev. revert b Hmap.
  induction a as [|x a IH]; intros [|y b] Hmap prev; try discriminate Hmap;
    [reflexivity |].
  injection Hmap as Hxy Hrest. simpl. rewrite <- Hxy.
  destruct (classify x) as [cur |]; [| reflexivity].
  destruct (String.eqb prev ""); [now apply IH |].
  destruct (negb (String.eqb prev cur)); [reflexivity | now apply IH].
Qed.

Lemma hasSameTypeElements_labels_only_witness :
  hasSameTypeElements [VArray [VInt32 1; VString "x"]; VArray []; VInt64 7]
  = hasSameTypeElements [VArray []; VArray [VNull]; VFloat64 2%float].
Proof.
  apply (hasSameTypeElements_labels_only
           [VArray [VInt32 1; VString "x"]; VArray []; VInt64 7]
           [VArray []; VArray [VNull]; VFloat64 2%float]).
  vm_compute. reflexivity.
Defined.

(** X2. The verdict does not depend on the order of the elements. *)
Theorem hasSameTypeElements_permutation (a b : Array) :
  Permutation a b ->
  hasSameTypeElements a = hasSameTypeElements b.
Proof.
  intros Hperm. apply hasSameTypeElements_agree.
  rewrite !homogeneous_iff_label. split; intros (label & Hall); exists label;
    intros e Hin; apply Hall.
  - apply (Permutation_in e (Permutation_sym Hperm) Hin).
  - apply (Permutation_in e Hperm Hin).
Qed.

Lemma hasSameTypeElements_permutation_witness :
  hasSameTypeElements [VInt32 1; VString "a"; VInt64 2]
  = hasSameTypeElements (rev [VInt32 1; VString "a"; VInt64 2]).
Proof.
  apply (hasSameTypeElements_permutation
           [VInt32 1; VString "a"; VInt64 2]
           (rev [VInt32 1; VString "a"; VInt64 2])).
  apply Permutation_rev.
Defined.

(** X3. Every array made of elements of a homogeneous array only (a
    sub-array, a selection, a repetition) is homogeneous. *)
Theorem hasSameTypeElements_incl (a b : Array) :
  incl b a ->
  hasSameTypeElements a = Returns true ->
  hasSameTypeElements b = Returns true.
Proof.
  intros Hincl. rewrite !homogeneous_iff_label.
  intros (label & Hall). exists label. intros e Hin. apply Hall, Hincl, Hin.
Qed.

Lemma hasSameTypeElements_incl_witness :
  hasSameTypeElements [VInt64 2; VInt64 2; VInt32 1] = Returns true.
Proof.
  apply (hasSameTypeElements_incl
           [VInt32 1; VInt64 2; VFloat64 3%float]
           [VInt64 2; VInt64 2; VInt32 1]).
  - intros e Hin. simpl in *. tauto.
  - vm_compute. reflexivity.
Defined.

(** X4. The concatenation of two arrays is homogeneous if and only if
    both are and, when neither is empty, their first elements have the
    same label. *)
Theorem hasSameTypeElements_app (a b : Array) :
  hasSameTypeElements (a ++ b) = Returns true <->
  hasSameTypeElements a = Returns true /\
  hasSameTypeElements b = Returns true /\
  (a = [] \/ b = [] \/ first_label a = first_label b).
Proof.
  rewrite !homogeneous_iff_label. split.
  - intros (label & Hall).
    assert (Ha : forall e, In e a -> classify e = Some label).
    { intros e Hin. apply Hall, in_or_app. now left. }
    assert (Hb : forall e, In e b -> classify e = Some label).
    { intros e Hin. apply Hall, in_or_app. now right. }
    split; [now exists label |]. split; [now exists label |].
    destruct a as [|x a]; [now left |].
    destruct b as [|y b]; [right; now left |].
    right. right. simpl.
    rewrite (Ha x (or_introl eq_refl)), (Hb y (or_introl eq_refl)). reflexivity.
  - intros ((la & Ha) & (lb & Hb) & Hfirst).
    destruct a as [|x a]; [exists lb; exact Hb |].
    destruct b as [|y b].
    { exists la. intros e Hin. apply Ha. now rewrite app_nil_r in Hin. }
    destruct Hfirst as [Hnil | [Hnil | Hfirst]]; try discriminate Hnil.
    simpl in Hfirst.
    rewrite (Ha x (or_introl eq_refl)), (Hb y (or_introl eq_refl)) in Hfirst.
    injection Hfirst as <-.
    exists la. intros e Hin. apply in_app_or in Hin.
    destruct Hin as [Hin | Hin]; [now apply Ha | now apply Hb].
Qed.

Lemma classify_integral (element : any) :
  classify element = Some "int" <-> integral element = true.
Proof.
  destruct element; cbn [integral]; try (cbn [classify]; split; congruence).
  rewrite classify_float_int.
  destruct (PrimFloat.eqb f (math.Trunc f)), (math.IsNaN f), (math.IsInf f 0);
    simpl; split; try discriminate; try tauto;
    intros (H1 & H2 & H3); discriminate.
Qed.

(** X5. An array that holds an int32, an int64 or an integral float is
    homogeneous if and only if all its elements are int32 values, int64
    values or floats [f] with [f == math.Trunc(f)] that are neither NaN
    nor infinite. *)
Theorem hasSameTypeElements_integral (array : Array) (x : any) :
  In x array -> integral x = true ->
  (hasSameTypeElements array = Returns true <->
   forall e, In e array -> integral e = true).
Proof.
  intros Hin Hx. rewrite homogeneous_iff_label. split.
  - intros (label & Hall) e He. apply classify_integral.
    apply classify_integral in Hx.
    rewrite (Hall e He), <- (Hall x Hin). exact Hx.
  - intros Hall. exists "int". intros e He. now apply classify_integral, Hall.
Qed.

Lemma hasSameTypeElements_integral_witness :
  hasSameTypeElements [VInt32 1; VFloat64 2%float; VInt64 3] = Returns true <->
  forall e, In e [VInt32 1; VFloat64 2%float; VInt64 3] -> integral e = true.
Proof.
  apply (hasSameTypeElements_integral
           [VInt32 1; VFloat64 2%float; VInt64 3] (VInt32 1));
    [simpl; auto | reflexivity].
Defined.

(** ** The type switch and the alias table *)

(** X6. Every label the type switch of [hasSameTypeElements] assigns is a
    key of [aliasToTypeCode], and the code found there is one
    [newTypeCode] accepts and prints as that label; the switch never
    assigns the aliases long and number: an int64 is labelled int and
    resolves to the code of int. *)
Theorem classify_label_is_alias (element : any) (label : string) :
  classify element = Some label ->
  (exists c : typeCode,
     aliasToTypeCode !! label = Some c
     /\ newTypeCode c = (c, None)
     /\ typeCode_String c = label)
  /\ label <> "long" /\ label <> "number".
Proof.
  intros Hlabel.
  assert (Hcases : In label ["object"; "array"; "double"; "int"; "string";
                             "binData"; "objectId"; "bool"; "date"; "null";
                             "regex"; "timestamp"]).
  { destruct element; try discriminate Hlabel;
      try (injection Hlabel as <-; simpl; tauto).
    destruct (classify_float_cases f) as [H | H]; rewrite H in Hlabel;
      injection Hlabel as <-; simpl; tauto. }
  simpl in Hcases.
  repeat (destruct Hcases as [<- | Hcases];
          [split; [eexists; repeat split; vm_compute; reflexivity
                  | split; discriminate] |]).
  destruct Hcases.
Qed.

Lemma classify_label_is_alias_witness :
  (exists c : typeCode,
     aliasToTypeCode !! "int" = Some c
     /\ newTypeCode c = (c, None)
     /\ typeCode_String c = "int")
  /\ "int" <> "long" /\ "int" <> "number".
Proof.
  apply (classify_label_is_alias (VInt64 5) "int"). reflexivity.
Defined.

(** ** [newTypeCode] *)

(** X7. Different codes never get the same result from [newTypeCode]: an
    accepted code comes back as itself, and the message of a rejected
    code spells that code. *)
Theorem newTypeCode_injective (c1 c2 : Z) :
  c1 <> c2 -> newTypeCode c1 <> newTypeCode c2.
Proof.
  intros Hne Heq. apply Hne. clear Hne.
  rewrite !newTypeCode_eq in Heq.
  destruct (case_of c1 implemented_codes) eqn:H1;
    destruct (case_of c2 implemented_codes) eqn:H2;
    destruct (case_of c1 unsupported_codes) eqn:U1;
    destruct (case_of c2 unsupported_codes) eqn:U2;
    try discriminate Heq; try congruence.
  - apply case_of_In in U1, U2. simpl in U1, U2.
    destruct U1 as [<- | [<- | [<- | []]]];
      destruct U2 as [<- | [<- | [<- | []]]];
      try reflexivity; vm_compute in Heq; discriminate Heq.
  - injection Heq as Hmsg.
    change (pretty c1 = pretty c2) in Hmsg.
    apply (inj pretty) in Hmsg. exact Hmsg.
Qed.

Lemma newTypeCode_injective_witness :
  newTypeCode 998 <> newTypeCode 999 /\ newTypeCode 16 <> newTypeCode 18.
Proof.
  split.
  - apply (newTypeCode_injective 998 999). lia.
  - apply (newTypeCode_injective 16 18). lia.
Defined.

(** ** [init] *)

(** The table [init] leaves, key by key, when the codes print as pairwise
    different names. *)
Lemma init_lookup (codes : list typeCode) (m : gmap string typeCode)
    (alias : string) :
  List.NoDup (map typeCode_String codes) ->
  (exists c, In c codes /\ typeCode_String c = alias
             /\ init m codes !! alias = Some c)
  \/ (~ In alias (map typeCode_String codes)
      /\ init m codes !! alias = m !! alias).
Proof.
  intros Hnodup.
  destruct (in_dec String.string_dec alias (map typeCode_String codes)) as [Hin | Hout].
  - left. apply in_map_iff in Hin. destruct Hin as (c & Hname & Hc).
    exists c. split; [exact Hc | split; [exact Hname |]].
    subst alias. now apply init_lookup_code.
  - right. split; [exact Hout | now apply init_lookup_other].
Qed.

(** X8. The table does not depend on the order in which [init] walks the
    codes: over any rearrangement of its slice, [init] builds
    [aliasToTypeCode]. *)
Theorem init_order_irrelevant (codes : list typeCode) :
  Permutation init_codes codes ->
  init ∅ codes = aliasToTypeCode.
Proof.
  intros Hperm. unfold aliasToTypeCode. apply map_eq. intros alias.
  pose proof init_codes_names_NoDup as Hnodup.
  assert (Hnodup' : List.NoDup (map typeCode_String codes)).
  { apply (Permutation_NoDup (Permutation_map typeCode_String Hperm) Hnodup). }
  destruct (init_lookup codes ∅ alias Hnodup') as [(c & Hc & Hname & Hl) | (Hout & Hl)];
    rewrite Hl; symmetry.
  - subst alias. apply init_lookup_code; [exact Hnodup |].
    apply (Permutation_in c (Permutation_sym Hperm) Hc).
  - apply init_lookup_other. intros Hin. apply Hout.
    apply (Permutation_in alias (Permutation_map typeCode_String Hperm) Hin).
Qed.

Lemma init_order_irrelevant_witness :
  init ∅ (rev init_codes) = aliasToTypeCode.
Proof.
  apply (init_order_irrelevant (rev init_codes)). apply Permutation_rev.
Defined.

(** X9. Whatever the table holds before, [init] sets the fourteen aliases
    to their codes and leaves every other key as it was; running it a
    second time changes nothing. *)
Theorem init_overwrites_and_preserves (m : gmap string typeCode) :
  (forall (alias : string) (c : typeCode), In (alias, c) alias_entries ->
     init m init_codes !! alias = Some c) /\
  (forall alias : string, ~ In alias protocol_names ->
     init m init_codes !! alias = m !! alias) /\
  init (init m init_codes) init_codes = init m init_codes.
Proof.
  assert (Hset : forall (alias : string) (c : typeCode),
             In (alias, c) alias_entries -> init m init_codes !! alias = Some c).
  { intros alias c Hin. simpl in Hin.
    repeat (destruct Hin as [Heq | Hin];
            [injection Heq as <- <-;
             match goal with
             | |- _ = Some ?code =>
                 apply (init_lookup_code init_codes m code init_codes_names_NoDup)
             end;
             vm_compute; tauto |]).
    destruct Hin. }
  assert (Hkeep : forall (m' : gmap string typeCode) (alias : string),
             ~ In alias protocol_names -> init m' init_codes !! alias = m' !! alias).
  { intros m' alias Hout. now apply init_lookup_other. }
  split; [exact Hset | split; [apply Hkeep |]].
  apply map_eq. intros alias.
  destruct (init_lookup init_codes (init m init_codes) alias init_codes_names_NoDup)
    as [(c & Hc & Hname & Hl) | (Hout & Hl)]; rewrite Hl; [| reflexivity].
  subst alias. symmetry.
  now apply init_lookup_code; [apply init_codes_names_NoDup |].
Qed.
